(** * 4A Watermelon: a verification of [problems/4A_Watermelon/main.c]

    The program reads one [int] with [scanf("%d", &w)], evaluates
    [can_divide(w)] and prints ["YES"] or ["NO"] with [printf].

    The embedding follows the C text statement by statement.  Undefined
    behaviour is an explicit outcome: every operation that the C standard
    leaves undefined returns [None], and a run that meets one has the
    behaviour [Undefined]. *)

From Stdlib Require Import ZArith Lia Bool String Ascii.

#[local] Open Scope string_scope.
#[local] Open Scope Z_scope.

(** ** The error monad: [None] is undefined behaviour *)

Module UB.

Definition ret {A : Type} (a : A) : option A := Some a.

Definition bind {A B : Type} (m : option A) (k : A -> option B) : option B :=
  match m with
  | Some a => k a
  | None => None
  end.

End UB.

Notation "x <- m ;; k" := (UB.bind m (fun x => k))
  (at level 61, m at next level, right associativity).

(** ** The C type [int] and the operators [can_divide] uses

    [int] is the 32-bit two's complement integer of the platforms the
    program is written for; a value of the type is a [Z] between [INT_MIN]
    and [INT_MAX]. *)

Module CInt.

Definition INT_MAX : Z := 2147483647.
Definition INT_MIN : Z := -2147483648.

Definition in_range (z : Z) : Prop := INT_MIN <= z <= INT_MAX.

Definition in_rangeb (z : Z) : bool := (INT_MIN <=? z) && (z <=? INT_MAX).

(** [a > b]: an [int] that is 1 or 0. *)
Definition gt (a b : Z) : Z := if a >? b then 1 else 0.

(** [a == b]: an [int] that is 1 or 0. *)
Definition eq (a b : Z) : Z := if a =? b then 1 else 0.

(** [a % b]: the remainder of the division truncated towards zero.
    Undefined when [b] is zero and when the quotient [a / b] cannot be
    represented, which is [INT_MIN / -1]. *)
Definition rem (a b : Z) : option Z :=
  if b =? 0 then None
  else if (a =? INT_MIN) && (b =? -1) then None
  else Some (Z.rem a b).

(** [a && b]: the right operand is evaluated only when the left one is not
    zero, so it is passed as a suspended computation. *)
Definition land (a : Z) (b : unit -> option Z) : option Z :=
  if a =? 0 then Some 0
  else v <- b tt ;; UB.ret (if v =? 0 then 0 else 1).

(** Conversion of an [int] to [bool] ([_Bool]): zero is [false], any
    other value [true]. *)
Definition to_Bool (z : Z) : bool := negb (z =? 0).

(** Integer promotion of a [bool]; [false] and [true] of <stdbool.h> are
    the constants 0 and 1. *)
Definition of_Bool (b : bool) : Z := if b then 1 else 0.

End CInt.

(** ** [can_divide]

    [bool can_divide(int w) { return w > 2 && w % 2 == 0; }] *)

Definition can_divide (w : Z) : option bool :=
  r <- CInt.land (CInt.gt w 2)
         (fun _ => m <- CInt.rem w 2 ;; UB.ret (CInt.eq m 0)) ;;
  UB.ret (CInt.to_Bool r).

(** ** Objects with automatic storage

    [int w;] and [char* str_output;] are declared without an initialiser:
    their value is indeterminate until something is stored, and using an
    indeterminate value is undefined. *)

Inductive cell (A : Type) : Type :=
| Indeterminate
| Value (a : A).

Arguments Indeterminate {A}.
Arguments Value {A} a.

Definition load {A : Type} (c : cell A) : option A :=
  match c with
  | Value a => Some a
  | Indeterminate => None
  end.

(** ** The two <stdio.h> calls of [main] *)

Module Stdio.

Definition EOF : Z := -1.

Definition isspace (c : ascii) : bool :=
  let n := N_of_ascii c in
  ((n =? 32) || ((9 <=? n) && (n <=? 13)))%N.

Definition isdigit (c : ascii) : bool :=
  let n := N_of_ascii c in
  ((48 <=? n) && (n <=? 57))%N.

Definition digit_val (c : ascii) : Z := Z.of_N (N_of_ascii c) - 48.

Fixpoint skip_space (s : string) : string :=
  match s with
  | String c r => if isspace c then skip_space r else s
  | EmptyString => s
  end.

Fixpoint read_digits (acc : Z) (s : string) : Z :=
  match s with
  | String c r => if isdigit c then read_digits (10 * acc + digit_val c) r else acc
  | EmptyString => acc
  end.

(** What the directive [%d] finds on the stream. *)
Inductive item : Type :=
| InputFailure          (* end of input before any character of the item *)
| MatchingFailure       (* the characters are not a decimal integer *)
| Matched (v : Z).      (* an optionally signed decimal integer *)

Definition unsigned_item (s : string) (neg : bool) : item :=
  match s with
  | String d _ =>
      if isdigit d
      then Matched (if neg then - read_digits 0 s else read_digits 0 s)
      else MatchingFailure
  | EmptyString => MatchingFailure
  end.

Definition scan_d (stdin : string) : item :=
  match skip_space stdin with
  | EmptyString => InputFailure
  | String c r =>
      if Ascii.eqb c "-" then unsigned_item r true
      else if Ascii.eqb c "+" then unsigned_item r false
      else unsigned_item (String c r) false
  end.

(** [scanf("%d", p)]: the value returned and the object [*p] afterwards.
    On a failure [*p] is left as it was.  A number that [int] cannot
    represent is undefined behaviour. *)
Definition scanf_d (stdin : string) (p : cell Z) : option (Z * cell Z) :=
  match scan_d stdin with
  | InputFailure => UB.ret (EOF, p)
  | MatchingFailure => UB.ret (0, p)
  | Matched v => if CInt.in_rangeb v then UB.ret (1, Value v) else None
  end.

(** [printf(fmt)] with no further argument: the characters written.
    [%%] writes one [%]; any other conversion specification asks for an
    argument that is not there, which is undefined. *)
Fixpoint printf_noargs (fmt : string) : option string :=
  match fmt with
  | EmptyString => UB.ret EmptyString
  | String c rest =>
      if Ascii.eqb c "%" then
        match rest with
        | String c' rest' =>
            if Ascii.eqb c' "%"
            then out <- printf_noargs rest' ;; UB.ret (String "%" out)
            else None
        | EmptyString => None
        end
      else out <- printf_noargs rest ;; UB.ret (String c out)
  end.

End Stdio.

(** ** [main] *)

(** The automatic variables of [main] and the text written so far. *)
Record state : Type := mkState {
  var_w : cell Z;
  var_str_output : cell string;
  stdout : string
}.

Definition initial : state :=
  {| var_w := Indeterminate; var_str_output := Indeterminate; stdout := "" |}.

Definition c_false : Z := 0.
Definition c_true : Z := 1.

(** [scanf("%d", &w);] The value [scanf] returns is discarded. *)
Definition stmt_scanf (stdin : string) (st : state) : option state :=
  r <- Stdio.scanf_d stdin (var_w st) ;;
  UB.ret {| var_w := snd r;
            var_str_output := var_str_output st;
            stdout := stdout st |}.

(** The body of the [switch]: two [case] labels and no [default], so a
    controlling value other than 0 and 1 jumps past the body. *)
Definition switch_body (c : Z) (st : state) : state :=
  if c =? c_false then
    {| var_w := var_w st; var_str_output := Value "NO"; stdout := stdout st |}
  else if c =? c_true then
    {| var_w := var_w st; var_str_output := Value "YES"; stdout := stdout st |}
  else st.

(** [switch (can_divide(w)) { ... }] *)
Definition stmt_switch (st : state) : option state :=
  w <- load (var_w st) ;;
  b <- can_divide w ;;
  UB.ret (switch_body (CInt.of_Bool b) st).

(** [printf(str_output);] *)
Definition stmt_printf (st : state) : option state :=
  fmt <- load (var_str_output st) ;;
  out <- Stdio.printf_noargs fmt ;;
  UB.ret {| var_w := var_w st;
            var_str_output := var_str_output st;
            stdout := (stdout st ++ out)%string |}.

(** What a run of the program can be observed to do. *)
Inductive behaviour : Type :=
| Terminates (out : string) (code : Z)
| Undefined.

(** [int main(void)]: control reaches the closing brace of [main], which
    returns 0. *)
Definition main (stdin : string) : behaviour :=
  match
    st1 <- stmt_scanf stdin initial ;;
    st2 <- stmt_switch st1 ;;
    stmt_printf st2
  with
  | Some st => Terminates (stdout st) 0
  | None => Undefined
  end.

(** [stdin] holds an integer that [scanf] stores in [w]. *)
Definition parses (stdin : string) (w : Z) : Prop :=
  Stdio.scanf_d stdin Indeterminate = Some (1, Value w).

(** What the directive finds when the input does not start with a decimal
    integer: a matching failure, or the end of the input. *)
Definition parse_fails (stdin : string) : Prop :=
  Stdio.scan_d stdin = Stdio.MatchingFailure \/
  Stdio.scan_d stdin = Stdio.InputFailure.

(** The text [main] prints for each value of the [bool]. *)
Definition verdict (b : bool) : string := if b then "YES" else "NO".

(** A decimal numeral for every [int], to show that [parses] is
    inhabited at each value of the type. *)

Definition digit_char (d : Z) : ascii := ascii_of_N (Z.to_N (48 + d)).

Fixpoint show_digits (fuel : nat) (n : Z) (tail : string) : string :=
  match fuel with
  | O => tail
  | S fuel' =>
      let tail' := String (digit_char (n mod 10)) tail in
      if n <? 10 then tail' else show_digits fuel' (n / 10) tail'
  end.

Definition show_int (w : Z) : string :=
  if w <? 0 then String "-" (show_digits 10 (- w) "")
  else show_digits 10 w "".

(** Input text made of white-space characters only, and input text whose
    first character is a decimal digit. *)

Fixpoint all_space (s : string) : bool :=
  match s with
  | String c r => Stdio.isspace c && all_space r
  | EmptyString => true
  end.

Definition starts_with_digit (s : string) : bool :=
  match s with
  | String c _ => Stdio.isdigit c
  | EmptyString => false
  end.

(** * Properties *)

(** ** [can_divide] *)

Section CanDivide.

Lemma rem_by_2 (w : Z) : CInt.rem w 2 = Some (Z.rem w 2).
Proof.
  unfold CInt.rem. simpl. now rewrite andb_false_r.
Qed.

Lemma rem_2_zero_iff (w : Z) : Z.rem w 2 = 0 <-> w mod 2 = 0.
Proof.
  rewrite Z.rem_divide, Z.mod_divide by lia. tauto.
Qed.

Lemma rem_2_bounds (w : Z) : -1 <= Z.rem w 2 <= 1.
Proof.
  assert (H2 : 2 <> 0) by lia.
  pose proof (Z.rem_bound_abs w 2 H2). lia.
Qed.

Lemma land_short_circuit (rhs : unit -> option Z) : CInt.land 0 rhs = Some 0.
Proof. reflexivity. Qed.

Lemma gt_2_zero (w : Z) : w <= 2 -> CInt.gt w 2 = 0.
Proof.
  intros Hw. unfold CInt.gt.
  destruct (Z.gtb_spec w 2); [lia | reflexivity].
Qed.

(** The value [can_divide] returns, at every [w]. *)
Lemma can_divide_eq (w : Z) :
  can_divide w = Some ((2 <? w) && (w mod 2 =? 0)).
Proof.
  unfold can_divide, CInt.land, CInt.gt.
  rewrite Z.gtb_ltb.
  destruct (Z.ltb_spec 2 w) as [Hw|Hw]; simpl; [|reflexivity].
  rewrite rem_by_2. simpl. unfold CInt.eq.
  destruct (Z.eqb_spec (Z.rem w 2) 0) as [E|E];
    destruct (Z.eqb_spec (w mod 2) 0) as [E'|E']; try reflexivity;
    rewrite rem_2_zero_iff in E; contradiction.
Qed.

Lemma can_divide_true_iff (w : Z) :
  can_divide w = Some true <-> w > 2 /\ w mod 2 = 0.
Proof.
  rewrite can_divide_eq.
  destruct (Z.ltb_spec 2 w), (Z.eqb_spec (w mod 2) 0); simpl;
    split; intros Hx; try discriminate; try reflexivity; try lia;
    exfalso; lia.
Qed.

Lemma can_divide_false_iff (w : Z) :
  can_divide w = Some false <-> ~ (w > 2 /\ w mod 2 = 0).
Proof.
  rewrite can_divide_eq.
  destruct (Z.ltb_spec 2 w), (Z.eqb_spec (w mod 2) 0); simpl;
    split; intros Hx; try discriminate; try reflexivity; try lia;
    exfalso; lia.
Qed.

End CanDivide.

(** ** [main] after a successful [scanf] *)

Section Main.

Lemma printf_verdict (b : bool) :
  Stdio.printf_noargs (verdict b) = Some (verdict b).
Proof. destruct b; reflexivity. Qed.

Lemma switch_body_Bool (b : bool) (st : state) :
  switch_body (CInt.of_Bool b) st =
  {| var_w := var_w st; var_str_output := Value (verdict b); stdout := stdout st |}.
Proof. destruct b; reflexivity. Qed.

Lemma stmt_scanf_parses (stdin : string) (w : Z) :
  parses stdin w ->
  stmt_scanf stdin initial =
  Some {| var_w := Value w; var_str_output := Indeterminate; stdout := "" |}.
Proof.
  unfold parses, stmt_scanf. simpl. intros ->. reflexivity.
Qed.

Lemma stmt_switch_value (st : state) (w : Z) :
  var_w st = Value w ->
  stmt_switch st =
  Some {| var_w := Value w;
          var_str_output := Value (verdict ((2 <? w) && (w mod 2 =? 0)));
          stdout := stdout st |}.
Proof.
  intros Hw. unfold stmt_switch. rewrite Hw. simpl.
  rewrite can_divide_eq. simpl.
  rewrite switch_body_Bool, Hw. reflexivity.
Qed.

Lemma main_parses (stdin : string) (w : Z) :
  parses stdin w ->
  main stdin = Terminates (verdict ((2 <? w) && (w mod 2 =? 0))) 0.
Proof.
  intros Hp. unfold main.
  rewrite (stmt_scanf_parses _ _ Hp). simpl.
  erewrite stmt_switch_value by reflexivity. simpl.
  unfold stmt_printf. simpl.
  rewrite printf_verdict. reflexivity.
Qed.

Lemma parses_in_range (stdin : string) (w : Z) :
  parses stdin w -> CInt.in_range w.
Proof.
  unfold parses, Stdio.scanf_d.
  destruct (Stdio.scan_d stdin) as [| |v]; try discriminate.
  destruct (CInt.in_rangeb v) eqn:E; try discriminate.
  intros H. injection H as <-.
  unfold CInt.in_rangeb in E. apply andb_prop in E as [E1 E2].
  apply Z.leb_le in E1, E2. split; assumption.
Qed.

End Main.

(** ** Every [int] can be read from the input *)

Section ShowInt.

Lemma digit_char_spec (d : Z) :
  0 <= d < 10 ->
  Stdio.isdigit (digit_char d) = true /\ Stdio.digit_val (digit_char d) = d.
Proof.
  intros Hd.
  assert (E : d = 0 \/ d = 1 \/ d = 2 \/ d = 3 \/ d = 4 \/
              d = 5 \/ d = 6 \/ d = 7 \/ d = 8 \/ d = 9) by lia.
  repeat (destruct E as [->|E]; [split; reflexivity|]).
  subst d. split; reflexivity.
Qed.

Lemma isdigit_not_space_nor_sign (c : ascii) :
  Stdio.isdigit c = true ->
  Stdio.isspace c = false /\ Ascii.eqb c "-" = false /\ Ascii.eqb c "+" = false.
Proof.
  destruct c as [[] [] [] [] [] [] [] []]; vm_compute;
    intros H; try discriminate H; repeat split.
Qed.

Lemma show_digits_head (fuel : nat) :
  forall (n : Z) (tail : string),
    exists d r, show_digits (S fuel) n tail = String d r /\
                (0 <= n -> Stdio.isdigit d = true).
Proof.
  induction fuel as [|fuel IH]; intros n tail.
  - exists (digit_char (n mod 10)), tail. split.
    + simpl. destruct (n <? 10); reflexivity.
    + intros _. apply digit_char_spec. apply Z.mod_pos_bound. lia.
  - change (show_digits (S (S fuel)) n tail)
      with (if n <? 10 then String (digit_char (n mod 10)) tail
            else show_digits (S fuel) (n / 10)
                   (String (digit_char (n mod 10)) tail)).
    destruct (Z.ltb_spec n 10) as [Hn|Hn].
    + exists (digit_char (n mod 10)), tail. split; [reflexivity|].
      intros _. apply digit_char_spec. apply Z.mod_pos_bound. lia.
    + destruct (IH (n / 10) (String (digit_char (n mod 10)) tail))
        as (d & r & E & Hd).
      exists d, r. split; [exact E|].
      intros _. apply Hd. apply Z.div_pos; lia.
Qed.

Lemma read_show_digits (fuel : nat) :
  forall (n : Z) (tail : string),
    0 <= n < 10 ^ Z.of_nat fuel ->
    Stdio.read_digits 0 (show_digits fuel n tail) = Stdio.read_digits n tail.
Proof.
  induction fuel as [|fuel IH]; intros n tail Hn.
  - simpl in *. replace n with 0 by lia. reflexivity.
  - assert (Hm : 0 <= n mod 10 < 10) by (apply Z.mod_pos_bound; lia).
    destruct (digit_char_spec _ Hm) as [Hd Hv].
    assert (Hstep : forall acc,
               Stdio.read_digits acc (String (digit_char (n mod 10)) tail) =
               Stdio.read_digits (10 * acc + n mod 10) tail).
    { intros acc. simpl. rewrite Hd, Hv. reflexivity. }
    simpl show_digits.
    destruct (Z.ltb_spec n 10) as [Hlt|Hge].
    + rewrite Hstep. f_equal. rewrite Z.mod_small; lia.
    + rewrite IH.
      * rewrite Hstep. f_equal.
        pose proof (Z.div_mod n 10). lia.
      * split; [apply Z.div_pos; lia|].
        apply Z.div_lt_upper_bound; [lia|].
        rewrite Nat2Z.inj_succ, Z.pow_succ_r in Hn; lia.
Qed.

Lemma parses_show_int (w : Z) : CInt.in_range w -> parses (show_int w) w.
Proof.
  unfold CInt.in_range, CInt.INT_MIN, CInt.INT_MAX. intros Hw.
  unfold parses, Stdio.scanf_d, show_int.
  destruct (Z.ltb_spec w 0) as [Hneg|Hpos].
  - destruct (show_digits_head 9 (- w) "") as (d & r & E & Hd).
    assert (R : Stdio.read_digits 0 (String d r) = - w).
    { rewrite <- E, read_show_digits by (simpl; lia). reflexivity. }
    rewrite E. unfold Stdio.scan_d.
    change (Stdio.skip_space (String "-" (String d r)))
      with (String "-" (String d r)).
    unfold Stdio.unsigned_item. rewrite Hd by lia. rewrite R.
    replace (- - w) with w by lia.
    change (Ascii.eqb "-" "-") with true. cbv iota.
    replace (CInt.in_rangeb w) with true; [reflexivity|].
    symmetry. unfold CInt.in_rangeb, CInt.INT_MIN, CInt.INT_MAX.
    apply andb_true_intro. split; apply Z.leb_le; lia.
  - destruct (show_digits_head 9 w "") as (d & r & E & Hd).
    assert (R : Stdio.read_digits 0 (String d r) = w).
    { rewrite <- E, read_show_digits by (simpl; lia). reflexivity. }
    rewrite E. unfold Stdio.scan_d.
    destruct (isdigit_not_space_nor_sign d (Hd Hpos)) as (Hs & Hm & Hp).
    cbn [Stdio.skip_space]. rewrite Hs, Hm, Hp.
    unfold Stdio.unsigned_item. rewrite Hd by lia. rewrite R.
    replace (CInt.in_rangeb w) with true; [reflexivity|].
    symmetry. unfold CInt.in_rangeb, CInt.INT_MIN, CInt.INT_MAX.
    apply andb_true_intro. split; apply Z.leb_le; lia.
Qed.

End ShowInt.

(** ** The model on a few inputs *)

Section Samples.

Example scanf_skips_space_and_stops :
  Stdio.scanf_d "  +06 kg" Indeterminate = Some (1, Value 6).
Proof. reflexivity. Qed.

Example scanf_matching_failure :
  Stdio.scanf_d "abc" Indeterminate = Some (0, Indeterminate).
Proof. reflexivity. Qed.

Example scanf_input_failure :
  Stdio.scanf_d "   " Indeterminate = Some (Stdio.EOF, Indeterminate).
Proof. reflexivity. Qed.

Example scanf_out_of_range :
  Stdio.scanf_d "2147483648" Indeterminate = None.
Proof. reflexivity. Qed.

Example printf_conversion_without_argument :
  Stdio.printf_noargs "%d" = None.
Proof. reflexivity. Qed.

Example switch_without_matching_label (st : state) : switch_body 2 st = st.
Proof. reflexivity. Qed.

Example rem_of_negative_odd : CInt.rem (-3) 2 = Some (-1).
Proof. reflexivity. Qed.

Example main_on_int_max : main "2147483647" = Terminates "NO" 0.
Proof. reflexivity. Qed.

Example main_on_int_min : main "-2147483648" = Terminates "NO" 0.
Proof. reflexivity. Qed.

End Samples.

(** ** Consequences used by the specification *)

Section Verdicts.

Lemma main_parses_cases (stdin : string) (w : Z) :
  parses stdin w ->
  (w > 2 /\ w mod 2 = 0 /\ main stdin = Terminates "YES" 0) \/
  (~ (w > 2 /\ w mod 2 = 0) /\ main stdin = Terminates "NO" 0).
Proof.
  intros Hp. rewrite (main_parses _ _ Hp).
  destruct (Z.ltb_spec 2 w), (Z.eqb_spec (w mod 2) 0); simpl;
    solve [left; repeat split; (reflexivity || lia)
          | right; split; [lia | reflexivity]].
Qed.

Lemma two_even_parts_iff (w : Z) :
  (w > 2 /\ w mod 2 = 0) <->
  (exists a b, 0 < a /\ 0 < b /\ Z.Even a /\ Z.Even b /\ a + b = w).
Proof.
  split.
  - intros [Hgt Hev]. exists 2, (w - 2).
    repeat split; try lia.
    + exists 1. reflexivity.
    + exists (w / 2 - 1). pose proof (Z.div_mod w 2). lia.
  - intros (a & b & Ha & Hb & [k Hk] & [k' Hk'] & Hs).
    subst a b. split; [lia|].
    replace w with ((k + k') * 2) by lia. apply Z.mod_mul. lia.
Qed.

Lemma main_exit_code_zero (stdin out : string) (code : Z) :
  main stdin = Terminates out code -> code = 0.
Proof.
  unfold main.
  destruct (st1 <- stmt_scanf stdin initial ;;
            st2 <- stmt_switch st1 ;; stmt_printf st2) as [st|];
    intros H; [injection H as _ <-; reflexivity | discriminate].
Qed.

Lemma main_undefined_on_failure (stdin : string) :
  parse_fails stdin -> main stdin = Undefined.
Proof.
  intros Hf. unfold main, stmt_scanf, Stdio.scanf_d.
  destruct Hf as [-> | ->]; reflexivity.
Qed.

End Verdicts.

(** * The specification, claim by claim *)

(** C1. For every integer [w] read from standard input, the program prints
    "YES" if and only if [w > 2] and [w mod 2 = 0], and prints "NO"
    otherwise; [can_divide] returns true exactly in the first case. *)
Theorem main_yes_iff_even_gt_2 (stdin : string) (w : Z)
    (Hp : parses stdin w) :
  (main stdin = Terminates "YES" 0 <-> w > 2 /\ w mod 2 = 0) /\
  (main stdin = Terminates "NO" 0 <-> ~ (w > 2 /\ w mod 2 = 0)) /\
  (can_divide w = Some true <-> w > 2 /\ w mod 2 = 0).
Proof.
  destruct (main_parses_cases _ _ Hp) as [(Hgt & Hev & Hm)|(Hn & Hm)];
    rewrite Hm; (split; [|split]).
  - split; [intros _; split; assumption | reflexivity].
  - split; [discriminate | intros Hn; exfalso; apply Hn; split; assumption].
  - apply can_divide_true_iff.
  - split; [discriminate | intros Hc; contradiction].
  - split; [intros _; exact Hn | reflexivity].
  - apply can_divide_true_iff.
Qed.

Lemma main_yes_iff_even_gt_2_witness :
  parses "4" 4 /\
  ((main "4" = Terminates "YES" 0 <-> 4 > 2 /\ 4 mod 2 = 0) /\
   (main "4" = Terminates "NO" 0 <-> ~ (4 > 2 /\ 4 mod 2 = 0)) /\
   (can_divide 4 = Some true <-> 4 > 2 /\ 4 mod 2 = 0)).
Proof.
  split; [reflexivity | apply (main_yes_iff_even_gt_2 "4" 4); reflexivity].
Defined.

(** C2. For every integer [w] read from standard input, the program prints
    "YES" if and only if [w] is the sum of two positive even integers;
    being even and greater than 2 is the same condition. *)
Theorem main_yes_iff_two_even_parts (stdin : string) (w : Z)
    (Hp : parses stdin w) :
  (main stdin = Terminates "YES" 0 <->
   exists a b, 0 < a /\ 0 < b /\ Z.Even a /\ Z.Even b /\ a + b = w) /\
  ((w > 2 /\ w mod 2 = 0) <->
   exists a b, 0 < a /\ 0 < b /\ Z.Even a /\ Z.Even b /\ a + b = w).
Proof.
  split; [|apply two_even_parts_iff].
  rewrite <- two_even_parts_iff.
  destruct (main_parses_cases _ _ Hp) as [(Hgt & Hev & Hm)|(Hn & Hm)];
    rewrite Hm.
  - split; [intros _; split; assumption | reflexivity].
  - split; [discriminate | intros Hc; contradiction].
Qed.

Lemma main_yes_iff_two_even_parts_witness :
  parses "10" 10 /\
  ((main "10" = Terminates "YES" 0 <->
    exists a b, 0 < a /\ 0 < b /\ Z.Even a /\ Z.Even b /\ a + b = 10) /\
   ((10 > 2 /\ 10 mod 2 = 0) <->
    exists a b, 0 < a /\ 0 < b /\ Z.Even a /\ Z.Even b /\ a + b = 10)).
Proof.
  split; [reflexivity | apply (main_yes_iff_two_even_parts "10" 10); reflexivity].
Defined.

(** C3. For every [w] read from standard input with [w <= 2], every
    negative [w] and every odd [w], [can_divide w] returns false and the
    program prints "NO". *)
Theorem main_no_when_small_negative_or_odd (stdin : string) (w : Z)
    (Hp : parses stdin w) (Hw : w <= 2 \/ w < 0 \/ Z.Odd w) :
  can_divide w = Some false /\ main stdin = Terminates "NO" 0.
Proof.
  assert (Hn : ~ (w > 2 /\ w mod 2 = 0)).
  { intros [Hgt Hev]. destruct Hw as [Hw|[Hw|[k Hk]]]; try lia.
    subst w. rewrite Z.add_comm, Z.mul_comm, Z.mod_add in Hev by lia.
    discriminate Hev. }
  split; [apply can_divide_false_iff; exact Hn|].
  destruct (main_parses_cases _ _ Hp) as [(Hgt & Hev & _)|(_ & Hm)];
    [exfalso; apply Hn; split; assumption | exact Hm].
Qed.

Lemma main_no_when_small_negative_or_odd_witness :
  parses "-3" (-3) /\ (-3 <= 2 \/ -3 < 0 \/ Z.Odd (-3)) /\
  (can_divide (-3) = Some false /\ main "-3" = Terminates "NO" 0).
Proof.
  split; [reflexivity|]. split; [left; lia|].
  apply (main_no_when_small_negative_or_odd "-3" (-3));
    [reflexivity | left; lia].
Defined.

(** C4. On the inputs the specification lists the program prints: 1 "NO",
    2 "NO", 3 "NO", 4 "YES", 100 "YES" and -4 "NO". *)
Theorem main_listed_inputs :
  main "1" = Terminates "NO" 0 /\
  main "2" = Terminates "NO" 0 /\
  main "3" = Terminates "NO" 0 /\
  main "4" = Terminates "YES" 0 /\
  main "100" = Terminates "YES" 0 /\
  main "-4" = Terminates "NO" 0.
Proof. repeat split; reflexivity. Qed.

(** C5. For every integer read from standard input, all that the program
    writes to standard output is the text "YES" or the text "NO", with no
    newline after it and nothing around it. *)
Theorem main_stdout_is_yes_or_no (stdin : string) (w : Z)
    (Hp : parses stdin w) :
  main stdin = Terminates "YES" 0 \/ main stdin = Terminates "NO" 0.
Proof.
  destruct (main_parses_cases _ _ Hp) as [(_ & _ & Hm)|(_ & Hm)];
    [left | right]; exact Hm.
Qed.

Lemma main_stdout_is_yes_or_no_witness :
  parses "7" 7 /\
  (main "7" = Terminates "YES" 0 \/ main "7" = Terminates "NO" 0).
Proof.
  split; [reflexivity | apply (main_stdout_is_yes_or_no "7" 7); reflexivity].
Defined.

(** C6. The program is deterministic: two runs that read the same integer
    value compute the same boolean and print the same text, whatever the
    characters of the two inputs are. *)
Theorem main_deterministic (stdin1 stdin2 : string) (w : Z)
    (Hp1 : parses stdin1 w) (Hp2 : parses stdin2 w) :
  exists (b : bool) (out : string),
    can_divide w = Some b /\
    main stdin1 = Terminates out 0 /\
    main stdin2 = Terminates out 0.
Proof.
  exists ((2 <? w) && (w mod 2 =? 0)),
         (verdict ((2 <? w) && (w mod 2 =? 0))).
  split; [apply can_divide_eq|].
  split; apply main_parses; assumption.
Qed.

Lemma main_deterministic_witness :
  parses "6" 6 /\ parses "  +06 kg" 6 /\
  (exists (b : bool) (out : string),
     can_divide 6 = Some b /\
     main "6" = Terminates out 0 /\
     main "  +06 kg" = Terminates out 0).
Proof.
  split; [reflexivity|]. split; [reflexivity|].
  apply (main_deterministic "6" "  +06 kg" 6); reflexivity.
Defined.

(** C7. For every integer read from standard input the program terminates
    with exit code 0, and no run at all ends with another exit code. *)
Theorem main_exits_with_zero (stdin : string) (w : Z)
    (Hp : parses stdin w) :
  (exists out, main stdin = Terminates out 0) /\
  (forall (stdin' out : string) (code : Z),
     main stdin' = Terminates out code -> code = 0).
Proof.
  split.
  - exists (verdict ((2 <? w) && (w mod 2 =? 0))).
    apply main_parses. exact Hp.
  - exact main_exit_code_zero.
Qed.

Lemma main_exits_with_zero_witness :
  parses "-12" (-12) /\
  ((exists out, main "-12" = Terminates out 0) /\
   (forall (stdin' out : string) (code : Z),
      main stdin' = Terminates out code -> code = 0)).
Proof.
  split; [reflexivity | apply (main_exits_with_zero "-12" (-12)); reflexivity].
Defined.

(** C8. When the input does not hold a valid integer, [scanf] reports the
    failure in the value it returns and leaves [w] as it was; [main] drops
    that value, so the indeterminate [w] reaches [can_divide] and the
    behaviour of the program is undefined: no output and no exit code is
    guaranteed. *)
Theorem main_undefined_on_parse_failure (stdin : string)
    (Hf : parse_fails stdin) :
  (exists r, Stdio.scanf_d stdin Indeterminate = Some (r, Indeterminate) /\
             (r = 0 \/ r = Stdio.EOF)) /\
  (exists st1, stmt_scanf stdin initial = Some st1 /\
               var_w st1 = Indeterminate /\
               stmt_switch st1 = None) /\
  main stdin = Undefined /\
  (forall out code, main stdin <> Terminates out code).
Proof.
  assert (Hs : exists r, Stdio.scanf_d stdin Indeterminate =
                         Some (r, Indeterminate) /\ (r = 0 \/ r = Stdio.EOF)).
  { unfold Stdio.scanf_d. destruct Hf as [-> | ->];
      [exists 0 | exists Stdio.EOF]; split; auto. }
  destruct Hs as (r & Hs & Hr).
  assert (Hm : main stdin = Undefined).
  { unfold main, stmt_scanf. simpl. rewrite Hs. reflexivity. }
  split; [exists r; split; assumption|].
  split.
  - exists initial. unfold stmt_scanf. simpl. rewrite Hs.
    repeat split.
  - split; [exact Hm|]. intros out code. rewrite Hm. discriminate.
Qed.

Lemma main_undefined_on_parse_failure_witness :
  parse_fails "abc" /\
  ((exists r, Stdio.scanf_d "abc" Indeterminate = Some (r, Indeterminate) /\
              (r = 0 \/ r = Stdio.EOF)) /\
   (exists st1, stmt_scanf "abc" initial = Some st1 /\
                var_w st1 = Indeterminate /\
                stmt_switch st1 = None) /\
   main "abc" = Undefined /\
   (forall out code, main "abc" <> Terminates out code)).
Proof.
  split; [left; reflexivity|].
  apply (main_undefined_on_parse_failure "abc"). left; reflexivity.
Defined.

(** C9. The [switch] has a label for each of the two values a [bool] can
    take, so whenever the input parses [str_output] holds "NO" or "YES"
    when [printf] reads it, and the read of an indeterminate pointer does
    not happen. *)
Theorem switch_assigns_str_output (stdin : string) (w : Z)
    (Hp : parses stdin w) :
  (forall (b : bool) (st : state),
     var_str_output (switch_body (CInt.of_Bool b) st) =
     Value (if b then "YES" else "NO")) /\
  (exists st1 st2 st3,
     stmt_scanf stdin initial = Some st1 /\
     stmt_switch st1 = Some st2 /\
     (var_str_output st2 = Value "NO" \/ var_str_output st2 = Value "YES") /\
     stmt_printf st2 = Some st3).
Proof.
  split.
  - intros b st. rewrite switch_body_Bool. reflexivity.
  - eexists _, _, _.
    split; [apply stmt_scanf_parses; exact Hp|].
    split; [apply stmt_switch_value; reflexivity|].
    split.
    + simpl. destruct ((2 <? w) && (w mod 2 =? 0)); [right | left]; reflexivity.
    + unfold stmt_printf. simpl. rewrite printf_verdict. reflexivity.
Qed.

Lemma switch_assigns_str_output_witness :
  parses "5" 5 /\
  ((forall (b : bool) (st : state),
      var_str_output (switch_body (CInt.of_Bool b) st) =
      Value (if b then "YES" else "NO")) /\
   (exists st1 st2 st3,
      stmt_scanf "5" initial = Some st1 /\
      stmt_switch st1 = Some st2 /\
      (var_str_output st2 = Value "NO" \/ var_str_output st2 = Value "YES") /\
      stmt_printf st2 = Some st3)).
Proof.
  split; [reflexivity | apply (switch_assigns_str_output "5" 5); reflexivity].
Defined.

(** C10. For every [w] of the 32-bit [int] range, [INT_MIN] and [INT_MAX]
    included, evaluating [can_divide w] meets no undefined operation:
    [w % 2] is defined with a remainder inside the range, the conjunction
    does not evaluate its right operand when [w <= 2], and the call returns
    a boolean. *)
Theorem can_divide_defined_on_int (w : Z) (Hw : CInt.in_range w) :
  (exists m, CInt.rem w 2 = Some m /\ CInt.in_range m) /\
  (w <= 2 -> forall rhs, CInt.land (CInt.gt w 2) rhs = Some 0) /\
  can_divide w = Some ((2 <? w) && (w mod 2 =? 0)) /\
  (exists stdin out, parses stdin w /\ main stdin = Terminates out 0 /\
                     (out = "YES" \/ out = "NO")).
Proof.
  split.
  - exists (Z.rem w 2). split; [apply rem_by_2|].
    pose proof (rem_2_bounds w).
    unfold CInt.in_range, CInt.INT_MIN, CInt.INT_MAX. lia.
  - split.
    + intros Hle rhs. rewrite (gt_2_zero _ Hle). apply land_short_circuit.
    + split; [apply can_divide_eq|].
      exists (show_int w), (verdict ((2 <? w) && (w mod 2 =? 0))).
      pose proof (parses_show_int _ Hw) as Hp.
      split; [exact Hp|]. split; [apply main_parses; exact Hp|].
      destruct ((2 <? w) && (w mod 2 =? 0)); [left | right]; reflexivity.
Qed.

Lemma can_divide_defined_on_int_witness :
  CInt.in_range CInt.INT_MIN /\
  ((exists m, CInt.rem CInt.INT_MIN 2 = Some m /\ CInt.in_range m) /\
   (CInt.INT_MIN <= 2 ->
    forall rhs, CInt.land (CInt.gt CInt.INT_MIN 2) rhs = Some 0) /\
   can_divide CInt.INT_MIN =
     Some ((2 <? CInt.INT_MIN) && (CInt.INT_MIN mod 2 =? 0)) /\
   (exists stdin out, parses stdin CInt.INT_MIN /\
                      main stdin = Terminates out 0 /\
                      (out = "YES" \/ out = "NO"))).
Proof.
  assert (Hr : CInt.in_range CInt.INT_MIN)
    by (unfold CInt.in_range, CInt.INT_MIN, CInt.INT_MAX; lia).
  split; [exact Hr | apply (can_divide_defined_on_int CInt.INT_MIN); exact Hr].
Defined.

(** * Further properties of the program *)

(** ** How [main] depends on the text of the input *)

Section InputText.

Lemma scanf_d_cases (stdin : string) :
  (parse_fails stdin /\ main stdin = Undefined) \/
  (exists v, Stdio.scan_d stdin = Stdio.Matched v /\
             ~ CInt.in_range v /\ main stdin = Undefined) \/
  (exists w, parses stdin w).
Proof.
  destruct (Stdio.scan_d stdin) as [| |v] eqn:E.
  - left. assert (Hf : parse_fails stdin) by (right; exact E).
    split; [exact Hf | apply main_undefined_on_failure; exact Hf].
  - left. assert (Hf : parse_fails stdin) by (left; exact E).
    split; [exact Hf | apply main_undefined_on_failure; exact Hf].
  - right. destruct (CInt.in_rangeb v) eqn:R.
    + right. exists v. unfold parses, Stdio.scanf_d. rewrite E, R. reflexivity.
    + left. exists v. split; [reflexivity|]. split.
      * intros [H1 H2]. unfold CInt.in_rangeb in R.
        apply Z.leb_le in H1, H2. rewrite H1, H2 in R. discriminate R.
      * unfold main, stmt_scanf, Stdio.scanf_d. rewrite E, R. reflexivity.
Qed.

Lemma parses_functional (stdin : string) (w w' : Z) :
  parses stdin w -> parses stdin w' -> w = w'.
Proof. unfold parses. intros H H'. congruence. Qed.

Lemma main_depends_on_item (s1 s2 : string) :
  Stdio.scan_d s1 = Stdio.scan_d s2 -> main s1 = main s2.
Proof.
  intros E. unfold main, stmt_scanf, Stdio.scanf_d. rewrite E. reflexivity.
Qed.

Lemma parses_item (stdin : string) (w : Z) :
  parses stdin w <->
  Stdio.scan_d stdin = Stdio.Matched w /\ CInt.in_rangeb w = true.
Proof.
  unfold parses, Stdio.scanf_d. split.
  - destruct (Stdio.scan_d stdin) as [| |v]; try discriminate.
    destruct (CInt.in_rangeb v) eqn:R; try discriminate.
    intros H. injection H as <-. split; [reflexivity | exact R].
  - intros [-> ->]. reflexivity.
Qed.

Lemma scan_d_leading_space (ws s : string) :
  all_space ws = true -> Stdio.scan_d (ws ++ s) = Stdio.scan_d s.
Proof.
  unfold Stdio.scan_d. induction ws as [|c ws IH]; intros H; [reflexivity|].
  simpl in H. apply andb_prop in H as [Hc Hws].
  simpl. rewrite Hc. apply IH. exact Hws.
Qed.

Lemma read_digits_tail (s tail : string) :
  starts_with_digit tail = false ->
  forall acc, Stdio.read_digits acc (s ++ tail) = Stdio.read_digits acc s.
Proof.
  intros Ht. induction s as [|c r IH]; intros acc.
  - simpl. destruct tail as [|d t]; [reflexivity|].
    simpl in Ht. simpl. rewrite Ht. reflexivity.
  - simpl. destruct (Stdio.isdigit c); [apply IH | reflexivity].
Qed.

Lemma unsigned_item_tail (s tail : string) (neg : bool) (v : Z) :
  starts_with_digit tail = false ->
  Stdio.unsigned_item s neg = Stdio.Matched v ->
  Stdio.unsigned_item (s ++ tail) neg = Stdio.Matched v.
Proof.
  intros Ht. destruct s as [|d r]; [discriminate|].
  unfold Stdio.unsigned_item.
  change ((String d r ++ tail)%string) with (String d (r ++ tail)%string).
  destruct (Stdio.isdigit d) eqn:Hd; [|discriminate].
  change (String d (r ++ tail)%string) with ((String d r ++ tail)%string).
  rewrite (read_digits_tail _ _ Ht), Hd. trivial.
Qed.

Lemma scan_d_tail (s tail : string) (v : Z) :
  starts_with_digit tail = false ->
  Stdio.scan_d s = Stdio.Matched v ->
  Stdio.scan_d (s ++ tail) = Stdio.Matched v.
Proof.
  intros Ht. unfold Stdio.scan_d.
  induction s as [|c r IH]; [discriminate|].
  change ((String c r ++ tail)%string) with (String c (r ++ tail)%string).
  cbn [Stdio.skip_space].
  destruct (Stdio.isspace c); [exact IH|].
  destruct (Ascii.eqb c "-"); [apply unsigned_item_tail; exact Ht|].
  destruct (Ascii.eqb c "+"); [apply unsigned_item_tail; exact Ht|].
  apply (unsigned_item_tail (String c r)). exact Ht.
Qed.




End InputText.

(** X1. Whatever the input is, a run of the program is one of three
    things: it prints "YES" and exits with 0, it prints "NO" and exits
    with 0, or its behaviour is undefined. *)
Theorem main_three_behaviours (stdin : string) :
  main stdin = Terminates "YES" 0 \/
  main stdin = Terminates "NO" 0 \/
  main stdin = Undefined.
Proof.
  destruct (scanf_d_cases stdin) as [[_ Hm]|[(v & _ & _ & Hm)|[w Hp]]].
  - right; right; exact Hm.
  - right; right; exact Hm.
  - destruct (main_parses_cases _ _ Hp) as [(_ & _ & Hm)|(_ & Hm)];
      [left | right; left]; exact Hm.
Qed.

(** X2. The behaviour of the program is undefined exactly when the input
    does not start with a decimal integer (only white space, or other
    characters first) or starts with one that [int] cannot represent:
    [main] checks neither the value [scanf] returns nor the size of the
    number. *)
Theorem main_undefined_iff (stdin : string) :
  main stdin = Undefined <->
  parse_fails stdin \/
  (exists v, Stdio.scan_d stdin = Stdio.Matched v /\ ~ CInt.in_range v).
Proof.
  split.
  - intros Hu.
    destruct (scanf_d_cases stdin) as [[Hf _]|[(v & E & R & _)|[w Hp]]].
    + left; exact Hf.
    + right; exists v; split; assumption.
    + rewrite (main_parses _ _ Hp) in Hu. discriminate Hu.
  - intros [Hf|(v & E & R)].
    + apply main_undefined_on_failure; exact Hf.
    + destruct (scanf_d_cases stdin) as [[_ Hm]|[(_ & _ & _ & Hm)|[w Hp]]];
        try exact Hm.
      exfalso. apply R. pose proof (parses_in_range _ _ Hp) as Hr.
      apply parses_item in Hp as [E' _]. rewrite E in E'.
      injection E' as ->. exact Hr.
Qed.


(** X4. No value below 4 is accepted by [can_divide]; 4 itself is. *)
Theorem can_divide_least_accepted (w : Z) (H : can_divide w = Some true) :
  4 <= w.
Proof.
  apply can_divide_true_iff in H as [Hgt Hev].
  destruct (Z.eq_dec w 3) as [->|Hne]; [discriminate Hev | lia].
Qed.

Lemma can_divide_least_accepted_witness :
  can_divide 4 = Some true /\ 4 <= 4.
Proof.
  split; [reflexivity | apply (can_divide_least_accepted 4); reflexivity].
Defined.

(** X5. Above 2 the answers of [can_divide] alternate: for an [int]
    [w > 2] whose successor is an [int] too, the result at [w + 1] is the
    negation of the result at [w]. *)
Theorem can_divide_alternates (w : Z) (H : 2 < w) (Hr : w < CInt.INT_MAX) :
  can_divide (w + 1) = option_map negb (can_divide w).
Proof.
  rewrite !can_divide_eq. simpl. f_equal.
  destruct (Z.ltb_spec 2 w) as [_|Hle]; [|lia].
  destruct (Z.ltb_spec 2 (w + 1)) as [_|Hle]; [|lia].
  simpl.
  assert (Hm : 0 <= w mod 2 < 2) by (apply Z.mod_pos_bound; lia).
  assert (Hs : (w + 1) mod 2 = (w mod 2 + 1) mod 2)
    by (rewrite Z.add_mod_idemp_l by lia; reflexivity).
  rewrite Hs.
  assert (E : w mod 2 = 0 \/ w mod 2 = 1) by lia.
  destruct E as [-> | ->]; reflexivity.
Qed.

Lemma can_divide_alternates_witness :
  2 < 7 /\ 7 < CInt.INT_MAX /\
  can_divide (7 + 1) = option_map negb (can_divide 7).
Proof.
  split; [lia|]. split; [reflexivity|].
  apply (can_divide_alternates 7); [lia | reflexivity].
Defined.

(** X6. White space before the number does not change what the program
    does, whatever follows it. *)
Theorem main_ignores_leading_space (ws s : string)
    (H : all_space ws = true) :
  main (ws ++ s) = main s.
Proof.
  apply main_depends_on_item. apply scan_d_leading_space. exact H.
Qed.

Lemma main_ignores_leading_space_witness :
  all_space "  " = true /\ main ("  " ++ "8") = main "8".
Proof.
  split; [reflexivity | apply (main_ignores_leading_space "  " "8"); reflexivity].
Defined.

(** X7. Once the input starts with an integer the program can read, text
    after it that does not begin with a digit (the newline that ends the
    line, a second number after a blank) changes nothing: the same integer
    is read and the run is the same. *)
Theorem main_ignores_trailing_text (stdin tail : string) (w : Z)
    (Hp : parses stdin w) (Ht : starts_with_digit tail = false) :
  parses (stdin ++ tail) w /\ main (stdin ++ tail) = main stdin.
Proof.
  assert (Hp' : parses (stdin ++ tail) w).
  { apply parses_item in Hp as [E R]. apply parses_item.
    split; [apply scan_d_tail; assumption | exact R]. }
  split; [exact Hp'|].
  rewrite (main_parses _ _ Hp), (main_parses _ _ Hp'). reflexivity.
Qed.

Lemma main_ignores_trailing_text_witness :
  parses "8" 8 /\ starts_with_digit (String "010" " 5") = false /\
  (parses ("8" ++ String "010" " 5") 8 /\
   main ("8" ++ String "010" " 5") = main "8").
Proof.
  split; [reflexivity|]. split; [reflexivity|].
  apply (main_ignores_trailing_text "8" (String "010" " 5") 8); reflexivity.
Defined.


